(** * gadalang: node-name resolution, plugin registry and node execution

    A shallow embedding of [gadalang/main.py] and [gadalang/nodes/__init__.py].

    Python strings are modelled as [string] (their UTF-8 bytes; the separator
    ["."] is a single byte that never occurs inside a multi-byte sequence),
    the [dict] built by [nodes.load] as a [gmap string string], exceptions as
    the [Raise] branch of [Result], and the one side effect that matters to
    the registry (a plugin discovery pass being run) as a counter threaded
    through a state-and-exception monad. *)

From stdpp Require Import gmap strings list.
From Stdlib Require Import ZArith.

Set Warnings "-register-all".

Local Open Scope string_scope.
Local Open Scope Z_scope.

(** ** Exceptions and results *)

(** [Exception msg] is what [run] raises itself ([raise Exception(...)]).
    [Foreign cls msg] stands for an exception raised by a collaborator
    (a plugin import, [plugin.nodes()], the process launcher, the JSON
    reader); the code has no [try]/[except], so they all propagate. *)
Inductive exn : Type :=
  | Exception (msg : string)
  | Foreign (cls : string) (msg : string).

Inductive Result (A : Type) : Type :=
  | Ok (a : A)
  | Raise (e : exn).

Arguments Ok {A} a.
Arguments Raise {A} e.

Definition rbind {A B : Type} (r : Result A) (k : A → Result B) : Result B :=
  match r with
  | Ok a => k a
  | Raise e => Raise e
  end.

(** ** The process-wide state *)

(** [discoveries] counts the plugin discovery passes ([nodes.load_plugins]
    calls) performed so far in this process. *)
Record World : Type := mkWorld { discoveries : nat }.

(** State and exceptions: a raised exception keeps the effects made so far. *)
Definition M (A : Type) : Type := World → Result A * World.

Definition ret {A : Type} (a : A) : M A := fun w => (Ok a, w).

Definition bind {A B : Type} (c : M A) (k : A → M B) : M B :=
  fun w =>
    match c w with
    | (Ok a, w') => k a w'
    | (Raise e, w') => (Raise e, w')
    end.

Definition lift {A : Type} (r : Result A) : M A := fun w => (r, w).

Definition tick_discovery : M unit :=
  fun w => (Ok tt, mkWorld (S (discoveries w))).

Notation "x <~ c ;; k" := (bind c (fun x => k))
  (at level 100, c at next level, right associativity).

(** Running a list of computations in order, stopping at the first raise. *)
Fixpoint mapM {A B : Type} (f : A → M B) (l : list A) : M (list B) :=
  match l with
  | [] => ret []
  | a :: l' => b <~ f a ;; bs <~ mapM f l' ;; ret (b :: bs)
  end.

(** ** Python string operations used by the code *)

(** [sub in s] *)
Fixpoint str_in (sub s : string) : bool :=
  String.prefix sub s ||
  match s with
  | EmptyString => false
  | String _ s' => str_in sub s'
  end.

(** [s.rfind(sub)]: the highest index where [sub] starts, [-1] if none. *)
Fixpoint rfind_from (sub s : string) (i found : Z) : Z :=
  let found' := if String.prefix sub s then i else found in
  match s with
  | EmptyString => found'
  | String _ s' => rfind_from sub s' (i + 1) found'
  end.

Definition rfind (s sub : string) : Z := rfind_from sub s 0 (-1).

Fixpoint str_drop (n : nat) (s : string) : string :=
  match n, s with
  | O, _ => s
  | S _, EmptyString => EmptyString
  | S n', String _ s' => str_drop n' s'
  end.

(** [s[k:]] for [0 <= k]; a negative [k] counts from the end. *)
Definition slice_from (k : Z) (s : string) : string :=
  if k <? 0
  then str_drop (Z.to_nat (Z.of_nat (String.length s) + k)) s
  else str_drop (Z.to_nat k) s.

(** ** gadalang/nodes/__init__.py *)

(** A loaded plugin: all the code asks of it is [plugin.nodes()]. *)
Record Plugin : Type := mkPlugin { plugin_nodes : unit → Result (list string) }.

(** An entry point of [pkg_resources.iter_entry_points("gadalang.nodes")]. *)
Record EntryPoint : Type := mkEntryPoint {
  ep_name : string;
  ep_load : unit → Result Plugin
}.

(** What is installed: the external collaborators of the discovery.
    [iter_modules path prefix] are the module names [pkgutil.iter_modules]
    reports (already prefixed), [import_module] is [importlib.import_module]. *)
Record Env : Type := mkEnv {
  iter_modules : string → list string;
  import_module : string → Result Plugin;
  iter_entry_points : string → list EntryPoint
}.

Module nodes.

(** [sys.modules[__name__].__name__] of [gadalang/nodes/__init__.py]. *)
Definition ns_pkg_name : string := "gadalang.nodes".

(** The generator [iter_namespace(ns_pkg)], as the list of what it yields. *)
Definition iter_namespace (env : Env) : list (string * (unit → Result Plugin)) :=
  map (fun name => (name, fun _ : unit => import_module env name))
      (iter_modules env (ns_pkg_name +:+ "."))
  ++ map (fun ep => ("gadaland.nodes." +:+ ep_name ep, ep_load ep))
         (iter_entry_points env "gadalang.nodes").

Definition normalize (name : string) : string :=
  slice_from (rfind name "." + 1) name.

(** The list comprehension of [load_plugins]: each loader is called in
    turn, the first one that raises ends the comprehension. *)
Fixpoint load_each (yielded : list (string * (unit → Result Plugin)))
  : Result (list (string * Plugin)) :=
  match yielded with
  | [] => Ok []
  | (name, load) :: rest =>
      rbind (load tt) (fun plugin =>
      rbind (load_each rest) (fun loaded =>
      Ok ((normalize name, plugin) :: loaded)))
  end.

Definition load_plugins (env : Env) : M (list (string * Plugin)) :=
  _ <~ tick_discovery ;;
  lift (load_each (iter_namespace env)).

(** The inner loop of [load]: [for _ in names: nodes[_] = name]. *)
Definition register (name : string) (names : list string)
    (nodes : gmap string string) : gmap string string :=
  foldl (fun acc node => <[node := name]> acc) nodes names.

(** The outer loop of [load]: [for name, plugin in plugins: ...]. *)
Fixpoint load_loop (plugins : list (string * Plugin))
    (nodes : gmap string string) : Result (gmap string string) :=
  match plugins with
  | [] => Ok nodes
  | (name, plugin) :: rest =>
      rbind (plugin_nodes plugin tt) (fun names =>
      load_loop rest (register name names nodes))
  end.

Definition load (env : Env) : M (gmap string string) :=
  plugins <~ load_plugins env ;;
  lift (load_loop plugins ∅).

End nodes.

(** ** gadalang/main.py: sanitize_node_name *)

Definition sanitize_node_name (env : Env) (node : string) : M string :=
  if str_in "." node then ret node
  else
    known <~ nodes.load env ;;
    match known !! node with
    | None => ret node
    | Some owner => ret ("gadalang_" +:+ owner +:+ "." +:+ node)
    end.

(** ** gadalang/main.py: run *)

(** JSON values exchanged with a node (integers only for numbers: no property
    below looks inside a value). *)
Inductive json : Type :=
  | JNull
  | JBool (b : bool)
  | JInt (n : Z)
  | JString (s : string)
  | JArray (items : list json)
  | JObject (members : list (string * json)).

(** What a child process has done once [proc.wait()] returns. *)
Record Completed : Type := mkCompleted {
  returncode : Z;
  child_stdout : string;
  child_stderr : string
}.

(** A launched node: from the text it reads on its stdin to its outcome. *)
Definition Program : Type := string → Completed.

(** The collaborators from [pygada_runtime]: the JSON writer and reader
    applied to a stream's bytes, the process launcher, and the text layer of
    a stream opened with [rmode="r"]: from the bytes written to the pipe to
    what [read()] returns, or to the exception it raises (decoding, newline
    translation, line length). *)
Record Runtime : Type := mkRuntime {
  json_dumps : json → string;
  json_loads : string → Result json;
  launch : string → Result Program;
  read_text : string → Result string
}.

(** The read mode of a stream: [PipeStream()] or [PipeStream(rmode="r")]. *)
Inductive Mode : Type := Binary | Text.

(** [pygada_runtime.PipeStream]: its read mode, the bytes written so far
    and whether [eof()] was called on it. *)
Record PipeStream : Type := mkPipe {
  rmode : Mode;
  buffer : string;
  at_eof : bool
}.

Definition PipeStream_new (rmode : Mode) : PipeStream := mkPipe rmode "" false.

(** A write that completes: the bytes are appended. *)
Definition pipe_write (p : PipeStream) (text : string) : PipeStream :=
  mkPipe (rmode p) (buffer p +:+ text) (at_eof p).

(** A write on a pipe of [capacity] bytes that nothing reads yet: it
    completes when the bytes fit in the pipe and never otherwise. [None] is
    a write that blocks for ever. *)
Definition pipe_write_bounded (capacity : Z) (p : PipeStream) (text : string)
  : option PipeStream :=
  if Z.of_nat (String.length (buffer p +:+ text)) <=? capacity
  then Some (pipe_write p text)
  else None.

Definition pipe_eof (p : PipeStream) : PipeStream :=
  mkPipe (rmode p) (buffer p) true.

(** [await stream.read()]: the whole content, as bytes for a binary
    stream and through the text layer for a text stream. *)
Definition pipe_read (rt : Runtime) (p : PipeStream) : Result string :=
  match rmode p with
  | Binary => Ok (buffer p)
  | Text => read_text rt (buffer p)
  end.

Definition write_json (rt : Runtime) (p : PipeStream) (data : json) : PipeStream :=
  pipe_write p (json_dumps rt data).

Definition write_json_bounded (capacity : Z) (rt : Runtime) (p : PipeStream)
    (data : json) : option PipeStream :=
  pipe_write_bounded capacity p (json_dumps rt data).

Definition read_json (rt : Runtime) (p : PipeStream) : Result json :=
  rbind (pipe_read rt p) (json_loads rt).

(** A process handle after [await proc.wait()]: its exit status and the
    two pipes it wrote to. *)
Record Proc : Type := mkProc {
  proc_returncode : Z;
  proc_stdout : PipeStream;
  proc_stderr : PipeStream
}.

(** [await pygada_runtime.run(name, stdin=..., stdout=..., stderr=...)]
    followed by [await proc.wait()]. *)
Definition run_and_wait (rt : Runtime) (name : string)
    (stdin stdout stderr : PipeStream) : Result Proc :=
  rbind (launch rt name) (fun program =>
    let done := program (buffer stdin) in
    Ok (mkProc (returncode done)
               (pipe_write stdout (child_stdout done))
               (pipe_write stderr (child_stderr done)))).

(** [run] when the write of the input completes (a pipe that takes all of
    it); [run_bounded] below is the same code on a pipe of a given size. *)
Definition run (rt : Runtime) (env : Env) (node : string) (data : option json)
  : M json :=
  let data := default (JObject []) data in
  let stdin := PipeStream_new Binary in
  let stdout := PipeStream_new Binary in
  let stderr := PipeStream_new Text in
  let stdin := write_json rt stdin data in
  let stdin := pipe_eof stdin in
  name <~ sanitize_node_name env node ;;
  proc <~ lift (run_and_wait rt name stdin stdout stderr) ;;
  let stdout := pipe_eof (proc_stdout proc) in
  let stderr := pipe_eof (proc_stderr proc) in
  if negb (proc_returncode proc =? 0)
  then message <~ lift (pipe_read rt stderr) ;;
       lift (Raise (Exception message))
  else lift (read_json rt stdout).

(** [run] on pipes of [capacity] bytes. [write_json] and [stdin.eof()] come
    before the child is launched, so nothing reads the pipe while the input
    is written: [None] is a call that never returns. *)
Definition run_bounded (capacity : Z) (rt : Runtime) (env : Env)
    (node : string) (data : option json) (w : World)
  : option (Result json * World) :=
  let data := default (JObject []) data in
  let stdin := PipeStream_new Binary in
  let stdout := PipeStream_new Binary in
  let stderr := PipeStream_new Text in
  match write_json_bounded capacity rt stdin data with
  | None => None
  | Some stdin =>
      let stdin := pipe_eof stdin in
      Some ((name <~ sanitize_node_name env node ;;
             proc <~ lift (run_and_wait rt name stdin stdout stderr) ;;
             let stdout := pipe_eof (proc_stdout proc) in
             let stderr := pipe_eof (proc_stderr proc) in
             if negb (proc_returncode proc =? 0)
             then message <~ lift (pipe_read rt stderr) ;;
                  lift (Raise (Exception message))
             else lift (read_json rt stdout)) w)
  end.

(** ** gadalang/main.py: main *)

(** The namespace [parser.parse_args] returns: the positional [node], the
    option [-d]/[--data] ([None] when absent) and the flag [-v]/[--verbose]. *)
Record Args : Type := mkArgs {
  args_node : string;
  args_data : option string;
  args_verbose : bool
}.

(** The collaborators of [main]: [sys.argv], the text on [sys.stdin], the
    [argparse] parser built in [main] (a usage error raises) and
    [json.loads]. *)
Record Cli : Type := mkCli {
  sys_argv : list string;
  sys_stdin : string;
  parse_args : list string → Result Args;
  loads : string → Result json
}.

(** [v is not None]: Python's [None] is the JSON value [null]. *)
Definition is_not_None (v : json) : bool :=
  match v with
  | JNull => false
  | _ => true
  end.

(** A decoded value as the optional argument [data] of [run]. *)
Definition as_optional (v : json) : option json :=
  if is_not_None v then Some v else None.

(** [main(argv, stdin)]; [stdin] is the text the given stream holds. The
    result is the value handed to [print], if any. *)
Definition main (rt : Runtime) (cli : Cli) (env : Env)
    (argv : option (list string)) (stdin : option string) : M (option json) :=
  let argv := default (sys_argv cli) argv in
  let stdin := default (sys_stdin cli) stdin in
  args <~ lift (parse_args cli (tail argv)) ;;
  data <~ lift (match args_data args with
                | None => loads cli stdin
                | Some text =>
                    if String.eqb text "-" then loads cli stdin
                    else loads cli text
                end) ;;
  output <~ run rt env (args_node args) (as_optional data) ;;
  if is_not_None output then ret (Some output) else ret None.

(** ** Quantities the properties are stated with *)

(** The registry as a value: what [nodes.load] returns in [env]. *)
Definition registry (env : Env) : Result (gmap string string) :=
  rbind (nodes.load_each (nodes.iter_namespace env))
        (fun plugins => nodes.load_loop plugins ∅).

(** Discovery passes performed by a computation started in [w]. *)
Definition discovery_passes {A : Type} (c : M A) (w : World) : nat :=
  (discoveries (snd (c w)) - discoveries w)%nat.

Definition unqualified (names : list string) : list string :=
  List.filter (fun n => negb (str_in "." n)) names.

(** What the child launched as [program] does with the input [run] hands
    it: the JSON text of [data], or of [{}] when no data is given. *)
Definition child_outcome (rt : Runtime) (program : Program)
    (data : option json) : Completed :=
  program (json_dumps rt (default (JObject []) data)).

(** "The message is the child's stderr, verbatim", for one call. *)
Definition stderr_verbatim (rt : Runtime) (env : Env) (node : string)
    (data : option json) (w : World) : Prop :=
  ∀ name program,
    fst (sanitize_node_name env node w) = Ok name →
    launch rt name = Ok program →
    returncode (child_outcome rt program data) ≠ 0 →
    fst (run rt env node data w)
    = Raise (Exception (child_stderr (child_outcome rt program data))).


(** "Resolution never raises", for one environment and one name. *)
Definition resolution_total (env : Env) (node : string) : Prop :=
  ∀ w, ∃ name, fst (sanitize_node_name env node w) = Ok name.

(** "The registry is built at most once", over a sequence of resolutions. *)
Definition built_at_most_once (env : Env) (names : list string) : Prop :=
  ∀ w, (discovery_passes (mapM (sanitize_node_name env) names) w ≤ 1)%nat.

(** ** Concrete installations used as test inputs *)

Definition w0 : World := mkWorld 0.

Definition no_modules (prefix : string) : list string := [].

Definition no_such_module (name : string) : Result Plugin :=
  Raise (Foreign "ModuleNotFoundError" name).

Definition entry_points_of (eps : list EntryPoint) (group : string)
  : list EntryPoint :=
  if String.eqb group "gadalang.nodes" then eps else [].

(** The installation of the docstrings: [gadalang_lang] registers the
    entry point [lang], which provides the nodes [json] and [yaml]. *)
Definition lang_plugin : Plugin := mkPlugin (fun _ => Ok ["json"; "yaml"]).

Definition lang_env : Env :=
  mkEnv no_modules no_such_module
        (entry_points_of [mkEntryPoint "lang" (fun _ => Ok lang_plugin)]).

(** An installation with an entry point that cannot be imported. *)
Definition broken_env : Env :=
  mkEnv no_modules no_such_module
        (entry_points_of
           [mkEntryPoint "lang" (fun _ => Ok lang_plugin);
            mkEntryPoint "gone"
              (fun _ => Raise (Foreign "ImportError" "No module named gone"))]).

(** Two plugins that both declare the node [x]. *)
Definition clash_env : Env :=
  mkEnv no_modules no_such_module
        (entry_points_of
           [mkEntryPoint "first" (fun _ => Ok (mkPlugin (fun _ => Ok ["x"; "y"])));
            mkEntryPoint "second" (fun _ => Ok (mkPlugin (fun _ => Ok ["z"; "x"])))]).

(** A runtime with five nodes: two echo their input and exit 0 (one is the
    [json] node of the docstrings), one prints a diagnostic and exits 1, one
    exits 0 after printing text that is not JSON, one prints a line ended
    by CR LF on stderr and exits 1. Any other name is launched too and the
    child exits 1 with a diagnostic. The reader knows the documents without
    quotes. *)
Definition CR : Stdlib.Strings.Ascii.ascii := Stdlib.Strings.Ascii.ascii_of_nat 13.
Definition LF : Stdlib.Strings.Ascii.ascii := Stdlib.Strings.Ascii.ascii_of_nat 10.
Definition double_quote : Stdlib.Strings.Ascii.ascii :=
  Stdlib.Strings.Ascii.ascii_of_nat 34.

(** Python's text mode on ASCII bytes (universal newlines): CR LF and a
    lone CR are read as LF. *)
Fixpoint universal_newlines (bytes : string) : string :=
  match bytes with
  | EmptyString => EmptyString
  | String c rest =>
      if Stdlib.Strings.Ascii.eqb c CR
      then match rest with
           | String c' rest' =>
               if Stdlib.Strings.Ascii.eqb c' LF
               then String LF (universal_newlines rest')
               else String LF (universal_newlines rest)
           | EmptyString => String LF EmptyString
           end
      else String c (universal_newlines rest)
  end.

Definition test_read_text (bytes : string) : Result string :=
  Ok (universal_newlines bytes).



Definition test_dumps (v : json) : string :=
  match v with
  | JString s => String double_quote (s +:+ String double_quote EmptyString)
  | JObject [] => "{}"
  | JArray [] => "[]"
  | JBool true => "true"
  | JBool false => "false"
  | _ => "null"
  end.

Definition test_loads (text : string) : Result json :=
  if String.eqb text "{}" then Ok (JObject [])
  else if String.eqb text "[]" then Ok (JArray [])
  else if String.eqb text "true" then Ok (JBool true)
  else if String.eqb text "false" then Ok (JBool false)
  else if String.eqb text "null" then Ok JNull
  else Raise (Foreign "JSONDecodeError" text).

Definition test_launch (name : string) : Result Program :=
  if String.eqb name "testnodes.echo"
  then Ok (fun input => mkCompleted 0 input "")
  else if String.eqb name "testnodes.boom"
  then Ok (fun input => mkCompleted 1 "{}" "boom")
  else if String.eqb name "testnodes.garbage"
  then Ok (fun input => mkCompleted 0 "hello" "a warning")
  else if String.eqb name "testnodes.crlf"
  then Ok (fun input =>
             mkCompleted 1 "" ("a" +:+ String CR (String LF "b")))
  else if String.eqb name "gadalang_lang.json"
  then Ok (fun input => mkCompleted 0 input "")
  else if String.eqb name ""
  then Raise (Foreign "OSError" "cannot launch")
  else Ok (fun input => mkCompleted 1 "" ("unknown node " +:+ name)).

Definition test_rt : Runtime :=
  mkRuntime test_dumps test_loads test_launch test_read_text.

(** A command line reader for [NODE], [NODE -d TEXT] and [NODE -v]. *)
Definition test_parse (args : list string) : Result Args :=
  match args with
  | [node] => Ok (mkArgs node None false)
  | [node; flag] =>
      if String.eqb flag "-v" then Ok (mkArgs node None true)
      else Raise (Foreign "SystemExit" "2")
  | [node; flag; text] =>
      if String.eqb flag "-d" then Ok (mkArgs node (Some text) false)
      else Raise (Foreign "SystemExit" "2")
  | _ => Raise (Foreign "SystemExit" "2")
  end.

Definition test_cli : Cli :=
  mkCli ["gadalang"; "testnodes.echo"] "[]" test_parse test_loads.

(** An installation with nothing in it. *)
Definition empty_env : Env :=
  mkEnv no_modules no_such_module (entry_points_of []).

(** A local sub-package and an entry point with a dotted name. *)
Definition mixed_env : Env :=
  mkEnv (fun prefix => [prefix +:+ "local"])
        (fun name => Ok (mkPlugin (fun _ => Ok ["a"])))
        (entry_points_of
           [mkEntryPoint "vendor.tools" (fun _ => Ok (mkPlugin (fun _ => Ok ["b"])))]).

(** A local sub-package and an entry point that declare the same node. *)
Definition ext_entry_point : EntryPoint :=
  mkEntryPoint "ext" (fun _ => Ok (mkPlugin (fun _ => Ok ["x"]))).

Definition shadow_env : Env :=
  mkEnv (fun prefix => [prefix +:+ "local"])
        (fun name => Ok (mkPlugin (fun _ => Ok ["x"; "y"])))
        (entry_points_of [ext_entry_point]).

(** A plugin that loads but whose [nodes()] raises. *)
Definition faulty_env : Env :=
  mkEnv no_modules no_such_module
        (entry_points_of
           [mkEntryPoint "lang" (fun _ => Ok lang_plugin);
            mkEntryPoint "bad"
              (fun _ => Ok (mkPlugin (fun _ => Raise (Foreign "TypeError" "nodes"))))]).

(** ** Basic facts *)

Lemma load_unfold (env : Env) (w : World) :
  nodes.load env w = (registry env, mkWorld (S (discoveries w))).
Proof.
  unfold nodes.load, nodes.load_plugins, registry, bind, tick_discovery, lift.
  simpl. destruct (nodes.load_each (nodes.iter_namespace env)); reflexivity.
Qed.

Lemma load_result (env : Env) (w : World) :
  fst (nodes.load env w) = registry env.
Proof. by rewrite load_unfold. Qed.

Lemma str_in_app_r (sub a b : string) :
  str_in sub b = true → str_in sub (a +:+ b) = true.
Proof.
  intros Hb. induction a as [|c a IH]; simpl; [done|].
  rewrite IH. apply orb_true_r.
Qed.

Lemma canonical_qualified (owner node : string) :
  str_in "." ("gadalang_" +:+ owner +:+ "." +:+ node) = true.
Proof.
  apply str_in_app_r, str_in_app_r. simpl. by destruct node.
Qed.

Lemma sanitize_qualified (env : Env) (s : string) (w : World) :
  str_in "." s = true → sanitize_node_name env s w = (Ok s, w).
Proof. intros Hs. unfold sanitize_node_name. by rewrite Hs. Qed.

Lemma sanitize_unqualified (env : Env) (s : string) (w : World) :
  str_in "." s = false →
  sanitize_node_name env s w =
    (rbind (registry env) (fun known =>
       match known !! s with
       | None => Ok s
       | Some owner => Ok ("gadalang_" +:+ owner +:+ "." +:+ s)
       end),
     mkWorld (S (discoveries w))).
Proof.
  intros Hs. unfold sanitize_node_name, bind. rewrite Hs, load_unfold.
  destruct (registry env) as [known|e]; simpl; [|done].
  by destruct (known !! s).
Qed.

(** The docstrings of [nodes.load_plugins], [nodes.load] and
    [sanitize_node_name], on the installation they were written for. *)
Example normalize_entry_point : nodes.normalize "gadaland.nodes.lang" = "lang".
Proof. reflexivity. Qed.

Example load_plugins_docstring :
  fst (nodes.load_plugins lang_env w0) = Ok [("lang", lang_plugin)].
Proof. reflexivity. Qed.

Example load_docstring :
  fst (nodes.load lang_env w0)
  = Ok (<["yaml" := "lang"]> (<["json" := "lang"]> ∅)).
Proof. reflexivity. Qed.

Example sanitize_docstring :
  fst (mapM (sanitize_node_name lang_env)
         ["json"; "somepackage.somenode"; "invalid"] w0)
  = Ok ["gadalang_lang.json"; "somepackage.somenode"; "invalid"].
Proof. vm_compute. reflexivity. Qed.

(** ** Resolution *)

(** C7. A reference containing the separator is returned unchanged, whatever
    is installed, and the registry is not consulted: the world, hence the
    number of discovery passes, is left as it was. *)
Theorem qualified_passthrough (env : Env) (s : string) (w : World) :
  str_in "." s = true →
  sanitize_node_name env s w = (Ok s, w).
Proof. apply sanitize_qualified. Qed.

Lemma qualified_passthrough_witness :
  sanitize_node_name broken_env "somepackage.somenode" w0
  = (Ok "somepackage.somenode", w0).
Proof. apply (qualified_passthrough broken_env "somepackage.somenode" w0). reflexivity. Defined.

(** C1. A name without separator that the registry maps to the group [g]
    resolves to ["gadalang_" + g + "." + n]. *)
Theorem registered_resolution (env : Env) (w : World) (n g : string)
    (known : gmap string string) :
  str_in "." n = false →
  fst (nodes.load env w) = Ok known →
  known !! n = Some g →
  fst (sanitize_node_name env n w) = Ok ("gadalang_" +:+ g +:+ "." +:+ n).
Proof.
  intros Hn Hload Hg. rewrite load_result in Hload.
  rewrite sanitize_unqualified by done. simpl. rewrite Hload. simpl.
  by rewrite Hg.
Qed.

Lemma registered_resolution_witness :
  fst (sanitize_node_name lang_env "json" w0) = Ok "gadalang_lang.json".
Proof.
  apply (registered_resolution lang_env w0 "json" "lang"
           (<["yaml" := "lang"]> (<["json" := "lang"]> ∅))).
  - reflexivity.
  - reflexivity.
  - vm_compute. reflexivity.
Defined.

(** C8. A name without separator that the registry does not know is
    returned unchanged. *)
Theorem unknown_passthrough (env : Env) (w : World) (name : string)
    (known : gmap string string) :
  str_in "." name = false →
  fst (nodes.load env w) = Ok known →
  known !! name = None →
  fst (sanitize_node_name env name w) = Ok name.
Proof.
  intros Hn Hload Hnone. rewrite load_result in Hload.
  rewrite sanitize_unqualified by done. simpl. rewrite Hload. simpl.
  by rewrite Hnone.
Qed.

Lemma unknown_passthrough_witness :
  fst (sanitize_node_name lang_env "invalid" w0) = Ok "invalid".
Proof.
  apply (unknown_passthrough lang_env w0 "invalid"
           (<["yaml" := "lang"]> (<["json" := "lang"]> ∅))).
  - reflexivity.
  - reflexivity.
  - vm_compute. reflexivity.
Defined.

(** What a successful resolution returns is a fixed point of resolution. *)
Lemma resolved_is_fixed (env : Env) (s r : string) (w w' : World) :
  fst (sanitize_node_name env s w) = Ok r →
  fst (sanitize_node_name env r w') = Ok r.
Proof.
  destruct (str_in "." s) eqn:Hs.
  - rewrite sanitize_qualified by done. simpl. intros [= <-].
    by rewrite sanitize_qualified.
  - rewrite sanitize_unqualified by done. simpl.
    destruct (registry env) as [known|e] eqn:Hreg; simpl; [|done].
    destruct (known !! s) as [owner|] eqn:Hk; intros [= <-].
    + by rewrite sanitize_qualified by apply canonical_qualified.
    + rewrite sanitize_unqualified by done. simpl.
      by rewrite Hreg; simpl; rewrite Hk.
Qed.

(** C10. Resolution is idempotent: resolving the result of a resolution
    gives that result again (and when the first resolution raises, so does
    the composition, with the same exception). *)
Theorem resolution_idempotent (env : Env) (s : string) (w : World) :
  fst ((r <~ sanitize_node_name env s ;; sanitize_node_name env r) w)
  = fst (sanitize_node_name env s w).
Proof.
  unfold bind.
  destruct (sanitize_node_name env s w) as [[r|e] w'] eqn:Hfirst; [|done].
  simpl. apply (resolved_is_fixed env s r w w'). by rewrite Hfirst.
Qed.

(** C4, as stated: resolution is total. It fails where a plugin cannot be
    loaded: the exception of the registry build leaves [sanitize_node_name]. *)
Lemma resolution_raises_on_broken_plugin :
  ¬ resolution_total broken_env "json".
Proof.
  intros Htotal. destruct (Htotal w0) as [name Hname].
  vm_compute in Hname. discriminate Hname.
Qed.

(** C4, amended. Resolution raises exactly when the name has no separator
    and the registry build raises, and then with the exception of the
    build; a name with a separator, or any name when the build succeeds,
    gets a result. *)
Theorem resolution_raises_only_from_build (env : Env) (s : string) (w : World) :
  match fst (nodes.load env w) with
  | Ok _ => ∃ name, fst (sanitize_node_name env s w) = Ok name
  | Raise e =>
      fst (sanitize_node_name env s w) = if str_in "." s then Ok s else Raise e
  end.
Proof.
  rewrite load_result.
  destruct (str_in "." s) eqn:Hs.
  - rewrite sanitize_qualified by done. simpl.
    destruct (registry env); eauto.
  - rewrite sanitize_unqualified by done. simpl.
    destruct (registry env) as [known|e]; simpl; [|done].
    destruct (known !! s); eauto.
Qed.

(** ** The registry: how often it is built *)

Lemma sanitize_discoveries (env : Env) (s : string) (w : World) :
  discoveries (snd (sanitize_node_name env s w))
  = if str_in "." s then discoveries w else S (discoveries w).
Proof.
  destruct (str_in "." s) eqn:Hs.
  - by rewrite sanitize_qualified.
  - by rewrite sanitize_unqualified.
Qed.

Lemma sanitize_succeeds (env : Env) (known : gmap string string)
    (s : string) (w : World) :
  registry env = Ok known → ∃ name, fst (sanitize_node_name env s w) = Ok name.
Proof.
  intros Hreg. destruct (str_in "." s) eqn:Hs.
  - rewrite sanitize_qualified by done. eauto.
  - rewrite sanitize_unqualified by done. simpl. rewrite Hreg. simpl.
    destruct (known !! s); eauto.
Qed.

Lemma mapM_sanitize_discoveries (env : Env) (known : gmap string string)
    (names : list string) :
  registry env = Ok known →
  ∀ w, discoveries (snd (mapM (sanitize_node_name env) names w))
       = (discoveries w + length (unqualified names))%nat.
Proof.
  intros Hreg. induction names as [|n names IH]; intros w; simpl.
  - lia.
  - unfold bind at 1.
    destruct (sanitize_succeeds env known n w Hreg) as [name Hname].
    pose proof (sanitize_discoveries env n w) as Hcount.
    destruct (sanitize_node_name env n w) as [r w1]. simpl in *. subst r.
    unfold bind at 1. specialize (IH w1).
    destruct (mapM (sanitize_node_name env) names w1) as [[bs|e] w2];
      simpl in *; rewrite IH, Hcount; destruct (str_in "." n); simpl; lia.
Qed.

(** C5, as stated: resolving several unqualified names builds the registry
    once. Resolving [json] and then [yaml] runs the discovery twice. *)
Lemma registry_rebuilt_per_resolution :
  ¬ built_at_most_once lang_env ["json"; "yaml"].
Proof.
  intros Honce. specialize (Honce w0). vm_compute in Honce. lia.
Qed.

(** C5, amended. Nothing is cached: when the registry build succeeds,
    resolving a sequence of names runs one discovery pass for each name
    without separator in it, and none for the names with a separator. *)
Theorem discovery_pass_per_unqualified_name (env : Env) (w : World)
    (known : gmap string string) (names : list string) :
  fst (nodes.load env w) = Ok known →
  discovery_passes (mapM (sanitize_node_name env) names) w
  = length (unqualified names).
Proof.
  rewrite load_result. intros Hreg. unfold discovery_passes.
  rewrite (mapM_sanitize_discoveries env known names Hreg w). lia.
Qed.

Lemma discovery_pass_per_unqualified_name_witness :
  discovery_passes
    (mapM (sanitize_node_name lang_env) ["json"; "somepackage.somenode"; "yaml"]) w0
  = 2%nat.
Proof.
  apply (discovery_pass_per_unqualified_name lang_env w0
           (<["yaml" := "lang"]> (<["json" := "lang"]> ∅))
           ["json"; "somepackage.somenode"; "yaml"]).
  reflexivity.
Defined.

(** ** The registry: which plugin owns a name *)

Section Ownership.

Implicit Types (nodes : gmap string string) (names : list string).

(** After [for _ in names: nodes[_] = name], the names of the plugin
    belong to it and the other entries are untouched. *)
Lemma register_lookup (name : string) names nodes (x : string) :
  nodes.register name names nodes !! x
  = if decide (x ∈ names) then Some name else nodes !! x.
Proof.
  unfold nodes.register. revert nodes.
  induction names as [|n names IH]; intros nodes; simpl.
  - destruct (decide (x ∈ [])) as [Hin|_]; [by apply elem_of_nil in Hin | done].
  - rewrite IH. destruct (decide (x ∈ names)) as [Hin|Hnotin].
    + rewrite decide_True; [done | by right].
    + destruct (decide (x = n)) as [->|Hne].
      * rewrite decide_True by left. apply lookup_insert_eq.
      * rewrite decide_False; [by apply lookup_insert_ne |].
        by intros [?|?]%elem_of_cons.
Qed.

(** Plugins that do not declare [x] leave its owner as it is. *)
Lemma load_loop_others (x : string) (plugins : list (string * Plugin)) :
  Forall (fun gp => ∃ names, plugin_nodes gp.2 tt = Ok names ∧ x ∉ names)
         plugins →
  ∀ nodes, ∃ result, nodes.load_loop plugins nodes = Ok result
                     ∧ result !! x = nodes !! x.
Proof.
  induction 1 as [|[g p] plugins (names & Hnames & Hx) _ IH]; intros nodes.
  - by exists nodes.
  - simpl in *. rewrite Hnames. simpl.
    destruct (IH (nodes.register g names nodes)) as (result & -> & Hlook).
    exists result. split; [done|].
    by rewrite Hlook, register_lookup, decide_False.
Qed.

(** Plugins whose [nodes()] returns are passed by the loop. *)
Lemma load_loop_app (before rest : list (string * Plugin)) :
  Forall (fun gp => ∃ names, plugin_nodes gp.2 tt = Ok names) before →
  ∀ nodes, ∃ mid, nodes.load_loop (before ++ rest)%list nodes
                  = nodes.load_loop rest mid.
Proof.
  induction 1 as [|[g p] before (names & Hnames) _ IH]; intros nodes.
  - by exists nodes.
  - simpl in *. rewrite Hnames. simpl. apply IH.
Qed.

End Ownership.

(** C6. When several plugins declare the node [x], [load] raises nothing
    and maps [x] to the group of the last plugin, in iteration order, that
    declares it; a second [load] over the same plugins returns the same
    mapping. *)
Theorem load_last_writer_wins (env : Env) (w : World)
    (before after : list (string * Plugin)) (g : string) (p : Plugin)
    (names : list string) (x : string) :
  fst (nodes.load_plugins env w) = Ok (before ++ (g, p) :: after)%list →
  Forall (fun gp => ∃ ns, plugin_nodes gp.2 tt = Ok ns) before →
  plugin_nodes p tt = Ok names →
  x ∈ names →
  Forall (fun gp => ∃ ns, plugin_nodes gp.2 tt = Ok ns ∧ x ∉ ns) after →
  ∃ known,
    fst (nodes.load env w) = Ok known
    ∧ known !! x = Some g
    ∧ fst (nodes.load env (snd (nodes.load env w))) = Ok known.
Proof.
  intros Hplugins Hbefore Hnames Hx Hafter.
  rewrite !load_result. unfold registry.
  unfold nodes.load_plugins, bind, tick_discovery, lift in Hplugins.
  simpl in Hplugins. rewrite Hplugins. simpl.
  destruct (load_loop_app before ((g, p) :: after) Hbefore ∅) as [mid ->].
  simpl. rewrite Hnames. simpl.
  destruct (load_loop_others x after Hafter (nodes.register g names mid))
    as (known & -> & Hlook).
  exists known. repeat split.
  by rewrite Hlook, register_lookup, decide_True.
Qed.

Lemma load_last_writer_wins_witness :
  ∃ known,
    fst (nodes.load clash_env w0) = Ok known
    ∧ known !! "x" = Some "second"
    ∧ fst (nodes.load clash_env (snd (nodes.load clash_env w0))) = Ok known.
Proof.
  apply (load_last_writer_wins clash_env w0
           [("first", mkPlugin (fun _ => Ok ["x"; "y"]))] []
           "second" (mkPlugin (fun _ => Ok ["z"; "x"])) ["z"; "x"] "x").
  - reflexivity.
  - repeat constructor. simpl. by exists ["x"; "y"].
  - reflexivity.
  - apply elem_of_cons. right. apply elem_of_cons. by left.
  - constructor.
Defined.

(** ** Execution *)

(** Once the name is resolved and the child launched, the outcome of [run]
    is decided by the exit status: the text read from stderr on one side,
    the JSON read from stdout on the other. *)
Lemma run_result (rt : Runtime) (env : Env) (node : string)
    (data : option json) (w : World) (name : string) (program : Program) :
  fst (sanitize_node_name env node w) = Ok name →
  launch rt name = Ok program →
  fst (run rt env node data w)
  = if negb (returncode (child_outcome rt program data) =? 0)
    then match read_text rt (child_stderr (child_outcome rt program data)) with
         | Ok message => Raise (Exception message)
         | Raise e => Raise e
         end
    else json_loads rt (child_stdout (child_outcome rt program data)).
Proof.
  intros Hname Hlaunch. unfold run, bind, child_outcome.
  destruct (sanitize_node_name env node w) as [r w1]. simpl in Hname. subst r.
  unfold lift, run_and_wait. rewrite Hlaunch. simpl.
  destruct (negb _); [|done].
  unfold pipe_read. simpl. by destruct (read_text rt _).
Qed.

(** C2, as stated: the message is the child's stderr, verbatim. A child
    that ends its lines with CR LF gets them back ended with LF: stderr is
    opened in text mode and read through the text layer. *)
Lemma stderr_newlines_translated :
  ¬ stderr_verbatim test_rt lang_env "testnodes.crlf" None w0.
Proof.
  intros Hverbatim.
  specialize (Hverbatim "testnodes.crlf"
                (fun input => mkCompleted 1 "" ("a" +:+ String CR (String LF "b")))
                eq_refl eq_refl).
  assert (1 ≠ 0) as Hcode by lia.
  specialize (Hverbatim Hcode). vm_compute in Hverbatim. discriminate Hverbatim.
Qed.

(** C2, amended. When the child exits with a status other than zero,
    [run] reads the whole of the text-mode stderr stream: it raises an
    [Exception] whose message is the text that read returns, or the
    exception of the read when it raises; what the child wrote on stdout
    plays no part in the result. *)
Theorem failure_carries_stderr_text (rt : Runtime) (env : Env) (node : string)
    (data : option json) (w : World) (name : string) (program : Program) :
  fst (sanitize_node_name env node w) = Ok name →
  launch rt name = Ok program →
  returncode (child_outcome rt program data) ≠ 0 →
  fst (run rt env node data w)
  = match read_text rt (child_stderr (child_outcome rt program data)) with
    | Ok message => Raise (Exception message)
    | Raise e => Raise e
    end.
Proof.
  intros Hname Hlaunch Hcode.
  rewrite (run_result rt env node data w name program Hname Hlaunch).
  apply Z.eqb_neq in Hcode. by rewrite Hcode.
Qed.

Lemma failure_carries_stderr_text_witness :
  fst (run test_rt lang_env "testnodes.boom" None w0) = Raise (Exception "boom").
Proof.
  apply (failure_carries_stderr_text test_rt lang_env "testnodes.boom" None w0
           "testnodes.boom" (fun input => mkCompleted 1 "{}" "boom")).
  - reflexivity.
  - reflexivity.
  - simpl. lia.
Defined.

(** C3. When the child exits with status zero, [run] returns what the JSON
    reader makes of the whole text of the child's stdout: the decoded value,
    or the reader's exception when the text is not JSON. *)
Theorem success_decodes_stdout (rt : Runtime) (env : Env) (node : string)
    (data : option json) (w : World) (name : string) (program : Program) :
  fst (sanitize_node_name env node w) = Ok name →
  launch rt name = Ok program →
  returncode (child_outcome rt program data) = 0 →
  fst (run rt env node data w)
  = json_loads rt (child_stdout (child_outcome rt program data)).
Proof.
  intros Hname Hlaunch Hcode.
  rewrite (run_result rt env node data w name program Hname Hlaunch).
  by rewrite Hcode.
Qed.

Lemma success_decodes_stdout_witness :
  fst (run test_rt lang_env "testnodes.garbage" (Some (JArray [])) w0)
  = Raise (Foreign "JSONDecodeError" "hello").
Proof.
  apply (success_decodes_stdout test_rt lang_env "testnodes.garbage"
           (Some (JArray [])) w0
           "testnodes.garbage" (fun input => mkCompleted 0 "hello" "a warning")).
  - reflexivity.
  - reflexivity.
  - reflexivity.
Defined.

(** On the failure path two children that differ only in what they wrote
    on stdout give the same exception. *)
Lemma failure_ignores_stdout (rt : Runtime) (env : Env) (node : string)
    (data : option json) (w : World) (name : string) (program : Program)
    (other : string) :
  fst (sanitize_node_name env node w) = Ok name →
  launch rt name = Ok program →
  returncode (child_outcome rt program data) ≠ 0 →
  let silent := fun input =>
    mkCompleted (returncode (program input)) other (child_stderr (program input)) in
  fst (run rt env node data w)
  = fst (run (mkRuntime (json_dumps rt) (json_loads rt) (fun _ => Ok silent)
                        (read_text rt))
             env node data w).
Proof.
  intros Hname Hlaunch Hcode silent.
  rewrite (run_result rt env node data w name program Hname Hlaunch).
  rewrite (run_result (mkRuntime _ _ _ _) env node data w name silent Hname eq_refl).
  apply Z.eqb_neq in Hcode. unfold child_outcome in *. simpl. by rewrite Hcode.
Qed.

Example run_echo :
  fst (run test_rt lang_env "testnodes.echo" None w0) = Ok (JObject []).
Proof. reflexivity. Qed.

(** ** Execution on pipes of bounded size *)



(** ** The separator in strings *)

Section Separator.

Import Stdlib.Strings.Ascii.

Implicit Types (a b s : string) (c : ascii).

Lemma prefix_empty s : String.prefix "" s = true.
Proof. by destruct s. Qed.

Lemma str_in_dot_cons c s :
  str_in "." (String c s)
  = if ascii_dec "."%char c then true else str_in "." s.
Proof.
  cbn [str_in String.prefix]. destruct (ascii_dec "."%char c); [|done].
  by rewrite prefix_empty.
Qed.

Lemma str_in_dot_app a b :
  str_in "." (a +:+ b) = str_in "." a || str_in "." b.
Proof.
  induction a as [|c a IH]; [done|].
  change (String c a +:+ b) with (String c (a +:+ b)).
  rewrite !str_in_dot_cons. by destruct (ascii_dec "."%char c).
Qed.

Lemma append_assoc a b s : (a +:+ b) +:+ s = a +:+ (b +:+ s).
Proof.
  induction a as [|c a IH]; [done|].
  change (String c ((a +:+ b) +:+ s) = String c (a +:+ b +:+ s)). by f_equal.
Qed.

(** A string with a separator splits at its last one. *)
Lemma split_at_last_dot s :
  str_in "." s = true →
  ∃ a b, s = a +:+ "." +:+ b ∧ str_in "." b = false.
Proof.
  induction s as [|c s IH]; [done|].
  destruct (str_in "." s) eqn:Hs.
  - intros _. destruct (IH eq_refl) as (a & b & -> & Hb).
    by exists (String c a), b.
  - rewrite str_in_dot_cons.
    destruct (ascii_dec "."%char c) as [<-|]; [|by rewrite Hs].
    intros _. by exists "", s.
Qed.

Lemma rfind_from_absent s (i found : Z) :
  str_in "." s = false → rfind_from "." s i found = found.
Proof.
  revert i found. induction s as [|c s IH]; intros i found; [done|].
  rewrite str_in_dot_cons. destruct (ascii_dec "."%char c) as [|Hc]; [done|].
  intros Hs. cbn [rfind_from String.prefix].
  destruct (ascii_dec "."%char c); [done|]. by apply IH.
Qed.

Lemma rfind_from_last a b (i found : Z) :
  str_in "." b = false →
  rfind_from "." (a +:+ "." +:+ b) i found = i + Z.of_nat (String.length a).
Proof.
  intros Hb. revert i found. induction a as [|c a IH]; intros i found.
  - simpl. rewrite prefix_empty, rfind_from_absent by done. lia.
  - change (String c a +:+ "." +:+ b) with (String c (a +:+ "." +:+ b)).
    cbn [rfind_from]. rewrite IH. cbn [String.length]. lia.
Qed.

Lemma length_app a b :
  String.length (a +:+ b) = (String.length a + String.length b)%nat.
Proof.
  induction a as [|c a IH]; [done|].
  change (S (String.length (a +:+ b)) = S (String.length a + String.length b)).
  by f_equal.
Qed.

Lemma str_drop_app a s : str_drop (String.length a) (a +:+ s) = s.
Proof. induction a as [|c a IH]; [done | apply IH]. Qed.

End Separator.

(** ** nodes.normalize: the final segment of a dotted name *)

Section FinalSegment.

Implicit Types (a b s : string).

Lemma normalize_split a b :
  str_in "." b = false → nodes.normalize (a +:+ "." +:+ b) = b.
Proof.
  intros Hb. unfold nodes.normalize, rfind.
  rewrite rfind_from_last by done. unfold slice_from.
  destruct (Z.ltb_spec (0 + Z.of_nat (String.length a) + 1) 0) as [|_]; [lia|].
  replace (Z.to_nat (0 + Z.of_nat (String.length a) + 1))
    with (String.length (a +:+ ".")).
  - by rewrite <- append_assoc, str_drop_app.
  - rewrite length_app. cbn [String.length]. lia.
Qed.

Lemma normalize_plain s : str_in "." s = false → nodes.normalize s = s.
Proof.
  intros Hs. unfold nodes.normalize, rfind.
  by rewrite rfind_from_absent.
Qed.

Lemma normalize_cases s :
  (str_in "." s = false ∧ nodes.normalize s = s)
  ∨ (∃ a b, s = a +:+ "." +:+ b ∧ str_in "." b = false ∧ nodes.normalize s = b).
Proof.
  destruct (str_in "." s) eqn:Hs.
  - right. destruct (split_at_last_dot s Hs) as (a & b & -> & Hb).
    exists a, b. repeat split; [done|]. by apply normalize_split.
  - left. split; [done|]. by apply normalize_plain.
Qed.

Lemma normalize_dotfree s : str_in "." (nodes.normalize s) = false.
Proof.
  destruct (normalize_cases s) as [[Hs ->]|(a & b & _ & Hb & ->)]; done.
Qed.

Lemma normalize_prefixed a s :
  nodes.normalize (a +:+ "." +:+ s) = nodes.normalize s.
Proof.
  destruct (normalize_cases s) as [[Hs ->]|(a' & b & -> & Hb & ->)].
  - by apply normalize_split.
  - replace (a +:+ "." +:+ a' +:+ "." +:+ b)
      with ((a +:+ "." +:+ a') +:+ "." +:+ b).
    + by apply normalize_split.
    + by rewrite !append_assoc.
Qed.

End FinalSegment.

(** X1. [normalize] returns what follows the last separator of a name. *)
Theorem normalize_last_segment (a b : string) :
  str_in "." b = false →
  nodes.normalize (a +:+ "." +:+ b) = b.
Proof. apply normalize_split. Qed.

Lemma normalize_last_segment_witness :
  nodes.normalize ("gadalang.nodes" +:+ "." +:+ "lang") = "lang".
Proof. apply (normalize_last_segment "gadalang.nodes" "lang"). reflexivity. Defined.

(** X2. A name without separator is its own final segment: [rfind] gives
    [-1] and the slice starts at 0. *)
Theorem normalize_unqualified (s : string) :
  str_in "." s = false → nodes.normalize s = s.
Proof. apply normalize_plain. Qed.

Lemma normalize_unqualified_witness : nodes.normalize "lang" = "lang".
Proof. apply (normalize_unqualified "lang"). reflexivity. Defined.

(** X3. A group name never contains the separator, whatever the name it
    is taken from. *)
Theorem normalize_has_no_separator (s : string) :
  str_in "." (nodes.normalize s) = false.
Proof. apply normalize_dotfree. Qed.

(** ** nodes.load_plugins: what is discovered, in which order *)

Section Discovery.

Implicit Types (yielded : list (string * (unit → Result Plugin)))
               (plugins : list (string * Plugin)).

Lemma load_plugins_unfold (env : Env) (w : World) :
  nodes.load_plugins env w
  = (nodes.load_each (nodes.iter_namespace env), mkWorld (S (discoveries w))).
Proof. reflexivity. Qed.

Lemma load_each_groups yielded plugins :
  nodes.load_each yielded = Ok plugins →
  plugins.*1 = map (fun y => nodes.normalize y.1) yielded.
Proof.
  revert plugins. induction yielded as [|[name ld] yielded IH]; intros plugins.
  - by intros [= <-].
  - simpl. destruct (ld tt) as [p|e]; simpl; [|done].
    destruct (nodes.load_each yielded) as [ps|e]; simpl; [|done].
    intros [= <-]. simpl. f_equal. by apply IH.
Qed.

Lemma load_each_first_failure yielded name ld rest (e : exn) :
  Forall (fun y => ∃ p, y.2 tt = Ok p) yielded →
  ld tt = Raise e →
  nodes.load_each (yielded ++ (name, ld) :: rest)%list = Raise e.
Proof.
  intros Hbefore Hld.
  induction Hbefore as [|[n l] yielded [p Hp] _ IH]; simpl in *.
  - by rewrite Hld.
  - by rewrite Hp, IH.
Qed.

End Discovery.

(** X4. The plugins come in discovery order, the local sub-packages first
    and the entry points after them, each under the final segment of its
    name: the prefix put in front of an entry point's name leaves no
    trace. *)
Theorem load_plugins_groups (env : Env) (w : World)
    (plugins : list (string * Plugin)) :
  fst (nodes.load_plugins env w) = Ok plugins →
  plugins.*1
  = (map nodes.normalize (iter_modules env "gadalang.nodes.")
     ++ map (fun ep => nodes.normalize (ep_name ep))
            (iter_entry_points env "gadalang.nodes"))%list.
Proof.
  rewrite load_plugins_unfold. simpl. intros Hplugins.
  rewrite (load_each_groups _ _ Hplugins). unfold nodes.iter_namespace.
  rewrite map_app, !map_map. f_equal.
  apply map_ext. intros ep. simpl.
  apply (normalize_prefixed "gadaland.nodes" (ep_name ep)).
Qed.

Lemma load_plugins_groups_witness :
  [("local", mkPlugin (fun _ => Ok ["a"]));
   ("tools", mkPlugin (fun _ => Ok ["b"]))].*1
  = (map nodes.normalize (iter_modules mixed_env "gadalang.nodes.")
     ++ map (fun ep => nodes.normalize (ep_name ep))
            (iter_entry_points mixed_env "gadalang.nodes"))%list.
Proof. apply (load_plugins_groups mixed_env w0). reflexivity. Defined.

(** X5. Every loader is called before any plugin is asked for its nodes:
    when one raises, the first to do so in discovery order decides, and
    resolving any name without separator raises its exception, also a name
    that a plugin loaded earlier provides. *)
Theorem unloadable_plugin_breaks_resolution (env : Env) (w : World)
    (before rest : list (string * (unit → Result Plugin)))
    (name : string) (ld : unit → Result Plugin) (e : exn) (s : string) :
  nodes.iter_namespace env = (before ++ (name, ld) :: rest)%list →
  Forall (fun y => ∃ p, y.2 tt = Ok p) before →
  ld tt = Raise e →
  str_in "." s = false →
  fst (nodes.load env w) = Raise e
  ∧ fst (sanitize_node_name env s w) = Raise e.
Proof.
  intros Hyield Hbefore Hld Hs.
  assert (registry env = Raise e) as Hreg.
  { unfold registry. rewrite Hyield.
    by rewrite (load_each_first_failure before name ld rest e). }
  rewrite load_result, sanitize_unqualified by done. simpl.
  by rewrite Hreg.
Qed.

Lemma unloadable_plugin_breaks_resolution_witness :
  fst (nodes.load broken_env w0)
    = Raise (Foreign "ImportError" "No module named gone")
  ∧ fst (sanitize_node_name broken_env "json" w0)
    = Raise (Foreign "ImportError" "No module named gone").
Proof.
  apply (unloadable_plugin_breaks_resolution broken_env w0
           [("gadaland.nodes.lang", fun _ => Ok lang_plugin)] []
           "gadaland.nodes.gone"
           (fun _ => Raise (Foreign "ImportError" "No module named gone"))).
  - reflexivity.
  - repeat constructor. simpl. by exists lang_plugin.
  - reflexivity.
  - reflexivity.
Defined.

(** ** nodes.load: what the registry holds *)

Section Contents.

Implicit Types (plugins : list (string * Plugin)) (nodes : gmap string string).

Lemma registry_of_plugins (env : Env) (w : World) plugins :
  fst (nodes.load_plugins env w) = Ok plugins →
  registry env = nodes.load_loop plugins ∅.
Proof.
  rewrite load_plugins_unfold. simpl. intros Hplugins.
  unfold registry. by rewrite Hplugins.
Qed.

(** An entry of the result was there before or was put by a plugin that
    declares the name. *)
Lemma load_loop_sound plugins nodes (known : gmap string string)
    (x g : string) :
  nodes.load_loop plugins nodes = Ok known →
  known !! x = Some g →
  nodes !! x = Some g
  ∨ ∃ p names, (g, p) ∈ plugins ∧ plugin_nodes p tt = Ok names ∧ x ∈ names.
Proof.
  revert nodes. induction plugins as [|[g0 p0] plugins IH]; intros nodes.
  - intros [= <-] Hx. by left.
  - simpl. destruct (plugin_nodes p0 tt) as [names0|e] eqn:Hnames0; [|done].
    simpl. intros Hloop Hx.
    destruct (IH _ Hloop Hx) as [Hreg|(p & names & Hin & Hnames & Hxin)].
    + rewrite register_lookup in Hreg.
      destruct (decide (x ∈ names0)) as [Hx0|_]; [|by left].
      injection Hreg as <-. right. exists p0, names0.
      split; [by left | done].
    + right. exists p, names. split; [by right | done].
Qed.

(** The loop never removes a name. *)
Lemma load_loop_keeps plugins nodes (known : gmap string string) (x : string) :
  nodes.load_loop plugins nodes = Ok known →
  is_Some (nodes !! x) → is_Some (known !! x).
Proof.
  revert nodes. induction plugins as [|[g0 p0] plugins IH]; intros nodes.
  - by intros [= <-].
  - simpl. destruct (plugin_nodes p0 tt) as [names0|e]; [|done].
    simpl. intros Hloop Hx. apply (IH _ Hloop).
    rewrite register_lookup. by destruct (decide (x ∈ names0)).
Qed.

Lemma load_loop_complete plugins nodes (known : gmap string string)
    (g : string) (p : Plugin) (names : list string) (x : string) :
  nodes.load_loop plugins nodes = Ok known →
  (g, p) ∈ plugins → plugin_nodes p tt = Ok names → x ∈ names →
  is_Some (known !! x).
Proof.
  revert nodes. induction plugins as [|[g0 p0] plugins IH]; intros nodes.
  - intros _ Hin. by apply elem_of_nil in Hin.
  - simpl. destruct (plugin_nodes p0 tt) as [names0|e] eqn:Hnames0; [|done].
    simpl. intros Hloop [[= <- <-]|Hin]%elem_of_cons Hnames Hx.
    + apply (load_loop_keeps _ _ _ _ Hloop).
      rewrite register_lookup. rewrite Hnames0 in Hnames.
      injection Hnames as ->. by rewrite decide_True.
    + by apply (IH _ Hloop Hin Hnames Hx).
Qed.

Lemma load_loop_first_failure (before rest : list (string * Plugin))
    (g : string) (p : Plugin) (e : exn) nodes :
  Forall (fun gp => ∃ names, plugin_nodes gp.2 tt = Ok names) before →
  plugin_nodes p tt = Raise e →
  nodes.load_loop (before ++ (g, p) :: rest)%list nodes = Raise e.
Proof.
  intros Hbefore Hp.
  destruct (load_loop_app before ((g, p) :: rest) Hbefore nodes) as [mid ->].
  simpl. by rewrite Hp.
Qed.

Lemma owner_dotfree (env : Env) (known : gmap string string) (x g : string) :
  registry env = Ok known → known !! x = Some g → str_in "." g = false.
Proof.
  unfold registry.
  destruct (nodes.load_each (nodes.iter_namespace env)) as [plugins|e] eqn:Heach;
    [|done].
  simpl. intros Hloop Hx.
  destruct (load_loop_sound plugins ∅ known x g Hloop Hx)
    as [Hempty|(p & names & Hin & _)].
  - by rewrite lookup_empty in Hempty.
  - assert (g ∈ plugins.*1) as Hg.
    { apply list_elem_of_fmap. by exists (g, p). }
    rewrite (load_each_groups _ _ Heach) in Hg.
    apply list_elem_of_fmap in Hg as (y & -> & _).
    apply normalize_dotfree.
Qed.

End Contents.

(** X6. Every entry of the registry comes from a plugin: the owner of a
    name is the group of a discovered plugin whose [nodes()] lists it. *)
Theorem registry_owner_declares (env : Env) (w : World)
    (plugins : list (string * Plugin)) (known : gmap string string)
    (x g : string) :
  fst (nodes.load_plugins env w) = Ok plugins →
  fst (nodes.load env w) = Ok known →
  known !! x = Some g →
  ∃ p names, (g, p) ∈ plugins ∧ plugin_nodes p tt = Ok names ∧ x ∈ names.
Proof.
  intros Hplugins Hload Hx.
  rewrite load_result, (registry_of_plugins env w plugins Hplugins) in Hload.
  destruct (load_loop_sound plugins ∅ known x g Hload Hx) as [Hempty|Hfound].
  - by rewrite lookup_empty in Hempty.
  - exact Hfound.
Qed.

Lemma registry_owner_declares_witness :
  ∃ p names, ("second", p) ∈ [("first", mkPlugin (fun _ => Ok ["x"; "y"]));
                               ("second", mkPlugin (fun _ => Ok ["z"; "x"]))]
             ∧ plugin_nodes p tt = Ok names ∧ "z" ∈ names.
Proof.
  apply (registry_owner_declares clash_env w0 _
           (nodes.register "second" ["z"; "x"]
              (nodes.register "first" ["x"; "y"] ∅))).
  - reflexivity.
  - reflexivity.
  - vm_compute. reflexivity.
Defined.

(** X7. No declared name is lost: when [load] returns, every name listed
    by a discovered plugin is a key of the registry. *)
Theorem registry_holds_declared_names (env : Env) (w : World)
    (plugins : list (string * Plugin)) (known : gmap string string)
    (g : string) (p : Plugin) (names : list string) (x : string) :
  fst (nodes.load_plugins env w) = Ok plugins →
  fst (nodes.load env w) = Ok known →
  (g, p) ∈ plugins →
  plugin_nodes p tt = Ok names →
  x ∈ names →
  is_Some (known !! x).
Proof.
  intros Hplugins Hload Hin Hnames Hx.
  rewrite load_result, (registry_of_plugins env w plugins Hplugins) in Hload.
  by apply (load_loop_complete plugins ∅ known g p names x).
Qed.

Lemma registry_holds_declared_names_witness :
  is_Some (nodes.register "second" ["z"; "x"]
             (nodes.register "first" ["x"; "y"] ∅) !! "y").
Proof.
  apply (registry_holds_declared_names clash_env w0
           [("first", mkPlugin (fun _ => Ok ["x"; "y"]));
            ("second", mkPlugin (fun _ => Ok ["z"; "x"]))] _
           "first" (mkPlugin (fun _ => Ok ["x"; "y"])) ["x"; "y"] "y").
  - reflexivity.
  - reflexivity.
  - by left.
  - reflexivity.
  - apply elem_of_cons. right. by left.
Defined.

(** X8. The owner recorded for a name never contains the separator. *)
Theorem registry_owner_has_no_separator (env : Env) (w : World)
    (known : gmap string string) (x g : string) :
  fst (nodes.load env w) = Ok known →
  known !! x = Some g →
  str_in "." g = false.
Proof. rewrite load_result. apply owner_dotfree. Qed.

Lemma registry_owner_has_no_separator_witness : str_in "." "tools" = false.
Proof.
  apply (registry_owner_has_no_separator mixed_env w0
           (nodes.register "tools" ["b"] (nodes.register "local" ["a"] ∅)) "b").
  - reflexivity.
  - vm_compute. reflexivity.
Defined.

(** X9. A plugin whose [nodes()] raises makes [load] raise that exception
    (the first such plugin in order decides), and with it the resolution of
    every name without separator. *)
Theorem faulty_plugin_breaks_load (env : Env) (w : World)
    (before rest : list (string * Plugin)) (g : string) (p : Plugin)
    (e : exn) (s : string) :
  fst (nodes.load_plugins env w) = Ok (before ++ (g, p) :: rest)%list →
  Forall (fun gp => ∃ names, plugin_nodes gp.2 tt = Ok names) before →
  plugin_nodes p tt = Raise e →
  str_in "." s = false →
  fst (nodes.load env w) = Raise e
  ∧ fst (sanitize_node_name env s w) = Raise e.
Proof.
  intros Hplugins Hbefore Hp Hs.
  assert (registry env = Raise e) as Hreg.
  { rewrite (registry_of_plugins env w _ Hplugins).
    by apply load_loop_first_failure. }
  rewrite load_result, sanitize_unqualified by done. simpl.
  by rewrite Hreg.
Qed.

Lemma faulty_plugin_breaks_load_witness :
  fst (nodes.load faulty_env w0) = Raise (Foreign "TypeError" "nodes")
  ∧ fst (sanitize_node_name faulty_env "json" w0)
    = Raise (Foreign "TypeError" "nodes").
Proof.
  apply (faulty_plugin_breaks_load faulty_env w0
           [("lang", lang_plugin)] [] "bad"
           (mkPlugin (fun _ => Raise (Foreign "TypeError" "nodes")))).
  - reflexivity.
  - repeat constructor. simpl. by exists ["json"; "yaml"].
  - reflexivity.
  - reflexivity.
Defined.

(** X10. With nothing installed the registry is empty and every name
    resolves to itself. *)
Theorem empty_installation (env : Env) (w : World) (s : string) :
  nodes.iter_namespace env = [] →
  fst (nodes.load env w) = Ok ∅
  ∧ fst (sanitize_node_name env s w) = Ok s.
Proof.
  intros Hnone.
  assert (registry env = Ok ∅) as Hreg.
  { unfold registry. by rewrite Hnone. }
  rewrite load_result. split; [done|].
  destruct (str_in "." s) eqn:Hs.
  - by rewrite sanitize_qualified.
  - rewrite sanitize_unqualified by done. simpl. rewrite Hreg. simpl.
    by rewrite lookup_empty.
Qed.

Lemma empty_installation_witness :
  fst (nodes.load empty_env w0) = Ok ∅
  ∧ fst (sanitize_node_name empty_env "json" w0) = Ok "json".
Proof. apply (empty_installation empty_env w0 "json"). reflexivity. Defined.

(** ** sanitize_node_name: the shape of a resolved name *)

Lemma sanitize_keeps_segment (env : Env) (w : World) (s r : string) :
  fst (sanitize_node_name env s w) = Ok r →
  nodes.normalize r = nodes.normalize s.
Proof.
  destruct (str_in "." s) eqn:Hs.
  - rewrite sanitize_qualified by done. by intros [= <-].
  - rewrite sanitize_unqualified by done. simpl.
    destruct (registry env) as [known|e]; simpl; [|done].
    destruct (known !! s) as [owner|]; intros [= <-]; [|done].
    rewrite (normalize_plain s Hs).
    rewrite <- (append_assoc "gadalang_" owner ("." +:+ s)).
    by apply normalize_split.
Qed.

(** X11. Resolution keeps the final segment of a reference: what follows
    the last separator of the result is what follows the last separator of
    the name given. *)
Theorem resolution_keeps_final_segment (env : Env) (w : World) (s r : string) :
  fst (sanitize_node_name env s w) = Ok r →
  nodes.normalize r = nodes.normalize s.
Proof. apply sanitize_keeps_segment. Qed.

Lemma resolution_keeps_final_segment_witness :
  nodes.normalize "gadalang_lang.json" = nodes.normalize "json".
Proof.
  apply (resolution_keeps_final_segment lang_env w0 "json" "gadalang_lang.json").
  reflexivity.
Defined.

(** X12. The identifier built for a registered name has exactly one
    separator: it is a package name without separator, made of
    ["gadalang_"] and the owner, then ["."], then the node name. *)
Theorem canonical_name_has_one_separator (env : Env) (w : World)
    (n g : string) (known : gmap string string) :
  str_in "." n = false →
  fst (nodes.load env w) = Ok known →
  known !! n = Some g →
  fst (sanitize_node_name env n w) = Ok (("gadalang_" +:+ g) +:+ "." +:+ n)
  ∧ str_in "." ("gadalang_" +:+ g) = false.
Proof.
  intros Hn Hload Hg. rewrite load_result in Hload. split.
  - rewrite sanitize_unqualified by done. simpl. rewrite Hload. simpl.
    by rewrite Hg, append_assoc.
  - rewrite str_in_dot_app, (owner_dotfree env known n g Hload Hg). reflexivity.
Qed.

Lemma canonical_name_has_one_separator_witness :
  fst (sanitize_node_name mixed_env "b" w0)
    = Ok (("gadalang_" +:+ "tools") +:+ "." +:+ "b")
  ∧ str_in "." ("gadalang_" +:+ "tools") = false.
Proof.
  apply (canonical_name_has_one_separator mixed_env w0 "b" "tools"
           (nodes.register "tools" ["b"] (nodes.register "local" ["a"] ∅))).
  - reflexivity.
  - reflexivity.
  - vm_compute. reflexivity.
Defined.

(** X13. Two names without separator that resolve to the same identifier
    are the same name. *)
Theorem resolution_separates_short_names (env : Env) (w w' : World)
    (n n' r : string) :
  str_in "." n = false →
  str_in "." n' = false →
  fst (sanitize_node_name env n w) = Ok r →
  fst (sanitize_node_name env n' w') = Ok r →
  n = n'.
Proof.
  intros Hn Hn' Hr Hr'.
  rewrite <- (normalize_plain n Hn), <- (normalize_plain n' Hn').
  rewrite <- (sanitize_keeps_segment env w n r Hr).
  by rewrite <- (sanitize_keeps_segment env w' n' r Hr').
Qed.

Lemma resolution_separates_short_names_witness : "json" = "json".
Proof.
  apply (resolution_separates_short_names lang_env w0 (mkWorld 1)
           "json" "json" "gadalang_lang.json").
  - reflexivity.
  - reflexivity.
  - reflexivity.
  - reflexivity.
Defined.

(** ** run: resolution, launch and the child's input *)

Section Running.

Variables (rt : Runtime) (env : Env).

(** [run] is a resolution followed by a step that touches neither the
    installation nor the world. *)
Lemma run_unfold (node : string) (data : option json) (w : World) :
  run rt env node data w
  = match sanitize_node_name env node w with
    | (Ok name, w') =>
        (match launch rt name with
         | Ok program =>
             if negb (returncode (child_outcome rt program data) =? 0)
             then match read_text rt
                          (child_stderr (child_outcome rt program data)) with
                  | Ok message => Raise (Exception message)
                  | Raise e => Raise e
                  end
             else json_loads rt (child_stdout (child_outcome rt program data))
         | Raise e => Raise e
         end, w')
    | (Raise e, w') => (Raise e, w')
    end.
Proof.
  unfold run, bind, child_outcome.
  destruct (sanitize_node_name env node w) as [[name|e] w']; [|done].
  unfold lift, run_and_wait. destruct (launch rt name) as [program|e]; [|done].
  simpl. destruct (negb _); [|done].
  unfold pipe_read. simpl. by destruct (read_text rt _).
Qed.

Lemma run_world (node : string) (data : option json) (w : World) :
  snd (run rt env node data w) = snd (sanitize_node_name env node w).
Proof.
  rewrite run_unfold. by destruct (sanitize_node_name env node w) as [[?|?] ?].
Qed.

End Running.

(** X14. Running a name and running the identifier it resolves to give the
    same result. *)
Theorem run_of_resolved_name (rt : Runtime) (env : Env) (node name : string)
    (data : option json) (w w' : World) :
  fst (sanitize_node_name env node w) = Ok name →
  fst (run rt env node data w) = fst (run rt env name data w').
Proof.
  intros Hname. pose proof (resolved_is_fixed env node name w w' Hname) as Hfix.
  rewrite !run_unfold.
  destruct (sanitize_node_name env node w) as [r1 w1].
  destruct (sanitize_node_name env name w') as [r2 w2].
  simpl in *. by subst.
Qed.

Lemma run_of_resolved_name_witness :
  fst (run test_rt lang_env "json" None w0)
  = fst (run test_rt lang_env "gadalang_lang.json" None w0).
Proof.
  apply (run_of_resolved_name test_rt lang_env "json" "gadalang_lang.json").
  reflexivity.
Defined.

(** X15. Running a reference that contains the separator does not depend
    on what is installed: no plugin is discovered or loaded, so no plugin
    can make it fail. *)
Theorem run_qualified_ignores_installation (rt : Runtime) (env env' : Env)
    (node : string) (data : option json) (w : World) :
  str_in "." node = true →
  run rt env node data w = run rt env' node data w
  ∧ snd (run rt env node data w) = w.
Proof.
  intros Hnode. rewrite !run_unfold, !sanitize_qualified by done.
  split; [done|]. by destruct (launch rt node).
Qed.

Lemma run_qualified_ignores_installation_witness :
  run test_rt broken_env "testnodes.echo" None w0
  = run test_rt lang_env "testnodes.echo" None w0
  ∧ snd (run test_rt broken_env "testnodes.echo" None w0) = w0.
Proof.
  apply (run_qualified_ignores_installation test_rt broken_env lang_env).
  reflexivity.
Defined.

(** X16. When [run] returns a value, on pipes of any size, it has
    performed one discovery pass for a name without separator and none for
    a name with one. *)
Theorem run_discovery_passes (capacity : Z) (rt : Runtime) (env : Env)
    (node : string) (data : option json) (w w' : World) (output : json) :
  run_bounded capacity rt env node data w = Some (Ok output, w') →
  discoveries w'
  = if str_in "." node then discoveries w else S (discoveries w).
Proof.
  unfold run_bounded, write_json_bounded, pipe_write_bounded.
  destruct (_ <=? capacity); [|done].
  intros Hsome.
  change (Some (run rt env node data w) = Some (Ok output, w')) in Hsome.
  injection Hsome as Hrun.
  rewrite <- (sanitize_discoveries env node w), <- (run_world rt env node data w).
  by rewrite Hrun.
Qed.

Lemma run_discovery_passes_witness :
  discoveries (mkWorld 1)
  = if str_in "." "json" then discoveries w0 else S (discoveries w0).
Proof.
  apply (run_discovery_passes 65536 test_rt lang_env "json"
           (Some (JArray [])) w0 (mkWorld 1) (JArray [])).
  vm_compute. reflexivity.
Defined.



(** X18. When the resolution raises, [run] raises the same exception and
    no child is launched: the result is the same with any launcher. *)
Theorem run_raises_resolution_failure (rt rt' : Runtime) (env : Env)
    (node : string) (data : option json) (w : World) (e : exn) :
  fst (sanitize_node_name env node w) = Raise e →
  fst (run rt env node data w) = Raise e
  ∧ run rt env node data w = run rt' env node data w.
Proof.
  intros Hraise. rewrite !run_unfold.
  destruct (sanitize_node_name env node w) as [r w1]. simpl in *. by subst r.
Qed.

Lemma run_raises_resolution_failure_witness :
  fst (run test_rt broken_env "json" None w0)
    = Raise (Foreign "ImportError" "No module named gone")
  ∧ run test_rt broken_env "json" None w0
    = run (mkRuntime test_dumps test_loads
             (fun _ => Ok (fun _ => mkCompleted 0 "{}" "")) test_read_text)
          broken_env "json" None w0.
Proof.
  apply (run_raises_resolution_failure test_rt _ broken_env "json" None w0).
  reflexivity.
Defined.



(** ** main: from the command line to the printed output *)

Section CommandLine.

Variables (rt : Runtime) (cli : Cli) (env : Env).

(** The text [main] decodes: the [-d] option, or the stream when the
    option is absent or is ["-"]. *)
Lemma main_unfold (argv : list string) (stdin : string) (w : World)
    (args : Args) (text : string) :
  parse_args cli (tail argv) = Ok args →
  text = match args_data args with
         | None => stdin
         | Some t => if String.eqb t "-" then stdin else t
         end →
  main rt cli env (Some argv) (Some stdin) w
  = match loads cli text with
    | Ok data =>
        match run rt env (args_node args) (as_optional data) w with
        | (Ok output, w') =>
            (Ok (if is_not_None output then Some output else None), w')
        | (Raise e, w') => (Raise e, w')
        end
    | Raise e => (Raise e, w)
    end.
Proof.
  intros Hparse ->. unfold main, bind, lift. simpl. rewrite Hparse.
  destruct (args_data args) as [t|]; [destruct (String.eqb t "-")|];
    (destruct (loads cli _) as [d|e]; [|done]);
    destruct (run rt env (args_node args) (as_optional d) w) as [[v|e] w'];
    try done; by destruct (is_not_None v).
Qed.

End CommandLine.

(** X20. Input that is not JSON stops [main] with the decoder's exception
    before anything is resolved or launched: the world is as it was. *)
Theorem main_rejects_undecodable_input (rt : Runtime) (cli : Cli) (env : Env)
    (argv : list string) (stdin : string) (w : World)
    (args : Args) (text : string) (e : exn) :
  parse_args cli (tail argv) = Ok args →
  args_data args = Some text →
  String.eqb text "-" = false →
  loads cli text = Raise e →
  main rt cli env (Some argv) (Some stdin) w = (Raise e, w).
Proof.
  intros Hparse Hdata Hdash Hloads.
  rewrite (main_unfold rt cli env argv stdin w args text Hparse).
  - by rewrite Hloads.
  - by rewrite Hdata, Hdash.
Qed.

Lemma main_rejects_undecodable_input_witness :
  main test_rt test_cli broken_env
    (Some ["gadalang"; "json"; "-d"; "oops"]) (Some "{}") w0
  = (Raise (Foreign "JSONDecodeError" "oops"), w0).
Proof.
  apply (main_rejects_undecodable_input test_rt test_cli broken_env
           ["gadalang"; "json"; "-d"; "oops"] "{}" w0
           (mkArgs "json" (Some "oops") false) "oops").
  - reflexivity.
  - reflexivity.
  - reflexivity.
  - reflexivity.
Defined.

(** X21. The data [-] stands for the input stream: [-d -] behaves as a
    command line without [-d], and the verbose flag changes nothing. *)
Theorem main_dash_reads_stdin (rt : Runtime) (cli : Cli) (env : Env)
    (argv argv' : list string) (stdin : string) (w : World)
    (node : string) (verbose verbose' : bool) :
  parse_args cli (tail argv) = Ok (mkArgs node (Some "-") verbose) →
  parse_args cli (tail argv') = Ok (mkArgs node None verbose') →
  main rt cli env (Some argv) (Some stdin) w
  = main rt cli env (Some argv') (Some stdin) w.
Proof.
  intros Hdash Hnone.
  rewrite (main_unfold rt cli env argv stdin w _ stdin Hdash eq_refl).
  by rewrite (main_unfold rt cli env argv' stdin w _ stdin Hnone eq_refl).
Qed.

Lemma main_dash_reads_stdin_witness :
  main test_rt test_cli lang_env
    (Some ["gadalang"; "testnodes.echo"; "-d"; "-"]) (Some "true") w0
  = main test_rt test_cli lang_env
      (Some ["gadalang"; "testnodes.echo"; "-v"]) (Some "true") w0.
Proof.
  apply (main_dash_reads_stdin test_rt test_cli lang_env
           ["gadalang"; "testnodes.echo"; "-d"; "-"]
           ["gadalang"; "testnodes.echo"; "-v"] "true" w0
           "testnodes.echo" false true).
  - reflexivity.
  - reflexivity.
Defined.

(** X22. The input [null] is run as the empty object: [main] decodes it to
    [None], which [run] replaces by [{}]. *)
Theorem main_null_input_is_empty_object (rt : Runtime) (cli : Cli) (env : Env)
    (argv argv' : list string) (stdin : string) (w : World)
    (node null_text empty_text : string) (verbose verbose' : bool) :
  parse_args cli (tail argv) = Ok (mkArgs node (Some null_text) verbose) →
  parse_args cli (tail argv') = Ok (mkArgs node (Some empty_text) verbose') →
  String.eqb null_text "-" = false →
  String.eqb empty_text "-" = false →
  loads cli null_text = Ok JNull →
  loads cli empty_text = Ok (JObject []) →
  main rt cli env (Some argv) (Some stdin) w
  = main rt cli env (Some argv') (Some stdin) w.
Proof.
  intros Hnull Hempty Hd1 Hd2 Hl1 Hl2.
  rewrite (main_unfold rt cli env argv stdin w _ null_text Hnull)
    by (simpl; by rewrite Hd1).
  rewrite (main_unfold rt cli env argv' stdin w _ empty_text Hempty)
    by (simpl; by rewrite Hd2).
  rewrite Hl1, Hl2. simpl. by rewrite !run_unfold.
Qed.

Lemma main_null_input_is_empty_object_witness :
  main test_rt test_cli lang_env
    (Some ["gadalang"; "testnodes.echo"; "-d"; "null"]) (Some "") w0
  = main test_rt test_cli lang_env
      (Some ["gadalang"; "testnodes.echo"; "-d"; "{}"]) (Some "") w0.
Proof.
  apply (main_null_input_is_empty_object test_rt test_cli lang_env
           ["gadalang"; "testnodes.echo"; "-d"; "null"]
           ["gadalang"; "testnodes.echo"; "-d"; "{}"] "" w0
           "testnodes.echo" "null" "{}" false false).
  - reflexivity.
  - reflexivity.
  - reflexivity.
  - reflexivity.
  - reflexivity.
  - reflexivity.
Defined.

(** X23. When the child exits with a status other than zero, [main] prints
    nothing: it raises the [Exception] whose message is what the read of the
    text-mode stderr stream returns, or the exception of that read. *)
Theorem main_raises_child_failure (rt : Runtime) (cli : Cli) (env : Env)
    (argv : list string) (stdin : string) (w : World) (args : Args)
    (text : string) (data : json) (name : string) (program : Program) :
  parse_args cli (tail argv) = Ok args →
  text = match args_data args with
         | None => stdin
         | Some t => if String.eqb t "-" then stdin else t
         end →
  loads cli text = Ok data →
  fst (sanitize_node_name env (args_node args) w) = Ok name →
  launch rt name = Ok program →
  returncode (child_outcome rt program (as_optional data)) ≠ 0 →
  fst (main rt cli env (Some argv) (Some stdin) w)
  = match read_text rt
            (child_stderr (child_outcome rt program (as_optional data))) with
    | Ok message => Raise (Exception message)
    | Raise e => Raise e
    end.
Proof.
  intros Hparse Htext Hloads Hname Hlaunch Hcode.
  rewrite (main_unfold rt cli env argv stdin w args text Hparse Htext).
  rewrite Hloads, run_unfold.
  destruct (sanitize_node_name env (args_node args) w) as [r w1].
  simpl in Hname. subst r. rewrite Hlaunch.
  apply Z.eqb_neq in Hcode. rewrite Hcode. simpl.
  by destruct (read_text rt _).
Qed.

Lemma main_raises_child_failure_witness :
  fst (main test_rt test_cli lang_env
         (Some ["gadalang"; "testnodes.boom"]) (Some "[]") w0)
  = Raise (Exception "boom").
Proof.
  apply (main_raises_child_failure test_rt test_cli lang_env
           ["gadalang"; "testnodes.boom"] "[]" w0
           (mkArgs "testnodes.boom" None false) "[]" (JArray [])
           "testnodes.boom" (fun input => mkCompleted 1 "{}" "boom")).
  - reflexivity.
  - reflexivity.
  - reflexivity.
  - reflexivity.
  - reflexivity.
  - simpl. lia.
Defined.

(** X24. [main] prints the output of the node unless it is [null]: a node
    that answers [null] makes [main] return without printing. *)
Theorem main_prints_non_null_output (rt : Runtime) (cli : Cli) (env : Env)
    (argv : list string) (stdin : string) (w : World) (args : Args)
    (text : string) (data output : json) :
  parse_args cli (tail argv) = Ok args →
  text = match args_data args with
         | None => stdin
         | Some t => if String.eqb t "-" then stdin else t
         end →
  loads cli text = Ok data →
  fst (run rt env (args_node args) (as_optional data) w) = Ok output →
  fst (main rt cli env (Some argv) (Some stdin) w)
  = Ok (match output with JNull => None | _ => Some output end).
Proof.
  intros Hparse Htext Hloads Hrun.
  rewrite (main_unfold rt cli env argv stdin w args text Hparse Htext).
  rewrite Hloads.
  destruct (run rt env (args_node args) (as_optional data) w) as [r w1].
  simpl in Hrun. subst r. simpl. by destruct output.
Qed.

Lemma main_prints_non_null_output_witness :
  fst (main test_rt test_cli lang_env
         (Some ["gadalang"; "testnodes.echo"; "-d"; "[]"]) (Some "") w0)
  = Ok (Some (JArray [])).
Proof.
  apply (main_prints_non_null_output test_rt test_cli lang_env
           ["gadalang"; "testnodes.echo"; "-d"; "[]"] "" w0
           (mkArgs "testnodes.echo" (Some "[]") false) "[]" (JArray [])
           (JArray [])).
  - reflexivity.
  - reflexivity.
  - reflexivity.
  - reflexivity.
Defined.

(** ** Discovery order and ownership together *)

Section Precedence.

Implicit Types (yielded : list (string * (unit → Result Plugin)))
               (plugins : list (string * Plugin)) (nodes : gmap string string).

Lemma load_each_app yielded yielded' plugins :
  nodes.load_each (yielded ++ yielded')%list = Ok plugins →
  ∃ first second,
    plugins = (first ++ second)%list
    ∧ nodes.load_each yielded = Ok first
    ∧ nodes.load_each yielded' = Ok second.
Proof.
  revert plugins. induction yielded as [|[name ld] yielded IH]; intros plugins.
  - intros Hsecond. by exists [], plugins.
  - simpl. destruct (ld tt) as [p|e]; simpl; [|done].
    destruct (nodes.load_each (yielded ++ yielded')%list) as [ps|e] eqn:Hrest;
      simpl; [|done].
    intros [= <-]. destruct (IH ps eq_refl) as (first & second & -> & -> & Hsnd).
    by exists ((nodes.normalize name, p) :: first), second.
Qed.

Lemma load_each_elem yielded plugins (g : string) (p : Plugin) :
  nodes.load_each yielded = Ok plugins →
  (g, p) ∈ plugins →
  ∃ y, y ∈ yielded ∧ g = nodes.normalize y.1 ∧ y.2 tt = Ok p.
Proof.
  revert plugins. induction yielded as [|[name ld] yielded IH]; intros plugins.
  - intros [= <-] Hin. by apply elem_of_nil in Hin.
  - simpl. destruct (ld tt) as [p0|e] eqn:Hld; simpl; [|done].
    destruct (nodes.load_each yielded) as [ps|e]; simpl; [|done].
    intros [= <-] [[= -> ->]|Hin]%elem_of_cons.
    + exists (name, ld). split; [by left | done].
    + destruct (IH ps eq_refl Hin) as (y & Hy & Hg & Hp).
      exists y. split; [by right | done].
Qed.

Lemma load_each_loaded yielded plugins (y : string * (unit → Result Plugin))
    (p : Plugin) :
  nodes.load_each yielded = Ok plugins →
  y ∈ yielded → y.2 tt = Ok p →
  (nodes.normalize y.1, p) ∈ plugins.
Proof.
  revert plugins. induction yielded as [|[name ld] yielded IH]; intros plugins.
  - intros _ Hin. by apply elem_of_nil in Hin.
  - simpl. destruct (ld tt) as [p0|e] eqn:Hld; simpl; [|done].
    destruct (nodes.load_each yielded) as [ps|e]; simpl; [|done].
    intros [= <-] [->|Hin]%elem_of_cons Hp.
    + simpl in *. rewrite Hld in Hp. injection Hp as ->. by left.
    + right. by apply IH.
Qed.

Lemma load_loop_split (first second : list (string * Plugin)) nodes
    (known : gmap string string) :
  nodes.load_loop (first ++ second)%list nodes = Ok known →
  ∃ mid, nodes.load_loop first nodes = Ok mid
         ∧ nodes.load_loop second mid = Ok known.
Proof.
  revert nodes. induction first as [|[g p] first IH]; intros nodes.
  - intros Hsecond. by exists nodes.
  - simpl. destruct (plugin_nodes p tt) as [names|e]; simpl; [|done].
    apply IH.
Qed.

(** When some plugin of the loop declares [x], the owner of [x] in the
    result is one of the plugins of the loop that declare it. *)
Lemma load_loop_owner_within plugins nodes (known : gmap string string)
    (x : string) :
  nodes.load_loop plugins nodes = Ok known →
  (∃ g p names, (g, p) ∈ plugins ∧ plugin_nodes p tt = Ok names ∧ x ∈ names) →
  ∃ g p names, (g, p) ∈ plugins ∧ plugin_nodes p tt = Ok names ∧ x ∈ names
               ∧ known !! x = Some g.
Proof.
  revert nodes. induction plugins as [|[g0 p0] plugins IH]; intros nodes.
  - intros _ (g & p & names & Hin & _). by apply elem_of_nil in Hin.
  - simpl. destruct (plugin_nodes p0 tt) as [names0|e] eqn:Hnames0; [|done].
    simpl. intros Hloop (g' & p' & names' & Hin' & Hnames' & Hx').
    assert (is_Some (known !! x)) as [g Hg].
    { apply elem_of_cons in Hin' as [[= -> ->]|Hin'].
      - apply (load_loop_keeps _ _ _ _ Hloop). rewrite register_lookup.
        rewrite Hnames0 in Hnames'. injection Hnames' as ->.
        by rewrite decide_True.
      - by apply (load_loop_complete _ _ _ g' p' names' x Hloop). }
    destruct (load_loop_sound _ _ _ _ _ Hloop Hg)
      as [Hreg|(p & names & Hin & Hnames & Hx)].
    + rewrite register_lookup in Hreg.
      destruct (decide (x ∈ names0)) as [Hx0|Hx0].
      * injection Hreg as <-. exists g0, p0, names0.
        repeat split; [by left | done..].
      * apply elem_of_cons in Hin' as [[= -> ->]|Hin'].
        { rewrite Hnames0 in Hnames'. by injection Hnames' as ->. }
        destruct (IH _ Hloop) as (g1 & p1 & names1 & Hin1 & Hrest).
        { by exists g', p', names'. }
        exists g1, p1, names1. split; [by right | done].
    + exists g, p, names. repeat split; [by right | done..].
Qed.

End Precedence.

(** X25. Entry points take precedence over local sub-packages: a name that
    an entry-point plugin declares is owned, in the registry, by an
    entry-point plugin that declares it, whatever the local sub-packages
    declare. *)
Theorem entry_points_take_precedence (env : Env) (w : World)
    (known : gmap string string) (ep : EntryPoint) (p : Plugin)
    (names : list string) (x : string) :
  fst (nodes.load env w) = Ok known →
  ep ∈ iter_entry_points env "gadalang.nodes" →
  ep_load ep tt = Ok p →
  plugin_nodes p tt = Ok names →
  x ∈ names →
  ∃ ep' p' names',
    ep' ∈ iter_entry_points env "gadalang.nodes"
    ∧ ep_load ep' tt = Ok p'
    ∧ plugin_nodes p' tt = Ok names'
    ∧ x ∈ names'
    ∧ known !! x = Some (nodes.normalize (ep_name ep')).
Proof.
  rewrite load_result. unfold registry, nodes.iter_namespace.
  set (locals := map _ (iter_modules env _)).
  set (entries := map _ (iter_entry_points env _)).
  destruct (nodes.load_each (locals ++ entries)%list) as [plugins|e] eqn:Heach;
    [|done].
  simpl. intros Hloop Hep Hload Hnames Hx.
  destruct (load_each_app _ _ _ Heach) as (first & second & -> & _ & Hsecond).
  destruct (load_loop_split _ _ _ _ Hloop) as (mid & _ & Hloop2).
  destruct (load_loop_owner_within second mid known x Hloop2)
    as (g & p' & names' & Hin & Hnames' & Hx' & Hg).
  { exists (nodes.normalize ("gadaland.nodes." +:+ ep_name ep)), p, names.
    split; [|done].
    apply (load_each_loaded entries second
             ("gadaland.nodes." +:+ ep_name ep, ep_load ep) p Hsecond);
      [|done].
    apply list_elem_of_fmap. by exists ep. }
  destruct (load_each_elem _ _ _ _ Hsecond Hin) as (y & Hy & -> & Hp').
  apply list_elem_of_fmap in Hy as (ep' & -> & Hep').
  exists ep', p', names'. repeat split; try done.
  rewrite Hg. f_equal. simpl.
  apply (normalize_prefixed "gadaland.nodes" (ep_name ep')).
Qed.

Lemma entry_points_take_precedence_witness :
  ∃ ep' p' names',
    ep' ∈ iter_entry_points shadow_env "gadalang.nodes"
    ∧ ep_load ep' tt = Ok p'
    ∧ plugin_nodes p' tt = Ok names'
    ∧ "x" ∈ names'
    ∧ nodes.register "ext" ["x"] (nodes.register "local" ["x"; "y"] ∅) !! "x"
      = Some (nodes.normalize (ep_name ep')).
Proof.
  apply (entry_points_take_precedence shadow_env w0 _ ext_entry_point
           (mkPlugin (fun _ => Ok ["x"])) ["x"] "x").
  - reflexivity.
  - apply (list_elem_of_here ext_entry_point []).
  - reflexivity.
  - reflexivity.
  - by left.
Defined.
